(** * Shallow embedding of src/models.py (SSD_Tensorflow2)

    The indexing and partial-execution helper [Network_Indexer], the two
    composites [Powered_Sequential] / [Powered_Model] that delegate to it,
    [BaseNet.__init__] and [DetectorNet.call].

    Layers are modelled as named pure functions on an abstract tensor type.
    Calls that invoke a layer go through a small state-and-error monad whose
    state is the log of the positions invoked so far (the call-count
    instrumentation of the spec), and whose errors are the Python exceptions
    the code raises. *)

From Stdlib Require Import ZArith List String Bool Lia.
Import ListNotations.
Open Scope Z_scope.

(** Python exceptions raised by the code. *)
Inductive exn : Type :=
| IndexError
| ValueError
| TypeError.

Section Model.

Variable T : Type.

(** A Keras layer: its [name] and its forward function. *)
Record layer : Type := mk_layer {
  lname : string;
  lapply : T -> T
}.

(** Keys accepted by [get_item] / [get_layer_index]: int, str, slice, or any
    other Python value ([KOther]).  Slice bounds are [None], an int or a str. *)
Inductive bound : Type :=
| BInt (z : Z)
| BStr (s : string).

Inductive key : Type :=
| KInt (z : Z)
| KStr (s : string)
| KSlice (start stop : option bound)
| KOther.

(** ** State-and-error monad: the state is the log of invoked positions. *)
Definition M (A : Type) : Type := list Z -> (exn + A) * list Z.

Definition ret {A} (a : A) : M A := fun log => (inr a, log).
Definition raise {A} (e : exn) : M A := fun log => (inl e, log).
Definition bind {A B} (m : M A) (f : A -> M B) : M B :=
  fun log => match m log with
             | (inl e, log') => (inl e, log')
             | (inr a, log') => f a log'
             end.
Definition lift {A} (r : exn + A) : M A :=
  match r with inl e => raise e | inr a => ret a end.

Local Notation "x <- m ;; k" := (bind m (fun x => k))
  (at level 61, m at next level, right associativity).

(** ** Python list helpers *)

(** [len(xs)] *)
Definition len {A} (xs : list A) : Z := Z.of_nat (List.length xs).

(** [xs[i]] on a Python list: negative indices count from the end; anything
    outside [-len, len) raises IndexError. *)
Definition py_index {A} (xs : list A) (i : Z) : exn + A :=
  let n := len xs in
  let j := if i <? 0 then n + i else i in
  if (j <? 0) || (n <=? j) then inl IndexError
  else match nth_error xs (Z.to_nat j) with
       | Some a => inr a
       | None => inl IndexError
       end.

(** The bound adjustment of CPython's slicing with step 1. *)
Definition slice_adjust (n : Z) (b : Z) : Z :=
  if b <? 0 then Z.max 0 (n + b) else Z.min b n.

(** [xs[start:stop]] *)
Definition py_slice {A} (xs : list A) (start stop : option Z) : list A :=
  let n := len xs in
  let s := match start with None => 0 | Some b => slice_adjust n b end in
  let e := match stop with None => n | Some b => slice_adjust n b end in
  firstn (Z.to_nat (e - s)) (skipn (Z.to_nat s) xs).

(** [range(n)] *)
Fixpoint zseq (a : Z) (n : nat) : list Z :=
  match n with
  | O => []
  | S n' => a :: zseq (a + 1) n'
  end.

Definition py_range (n : Z) : list Z := zseq 0 (Z.to_nat n).

(** ** Network_Indexer.get_layer_index (models.py, lines 41-60) *)

(** The loop of lines 53-55: [for l, layer in zip(range(len(layers)), layers):
    if layer.name == key: index = l]. *)
Fixpoint name_scan (layers : list layer) (l : Z) (key : string)
    (index : option Z) : option Z :=
  match layers with
  | [] => index
  | layer :: rest =>
      let index := if String.eqb (lname layer) key then Some l else index in
      name_scan rest (l + 1) key index
  end.

Definition get_layer_index (layers : list layer) (k : key) : exn + Z :=
  match k with
  | KInt key =>
      if len layers <=? key then inl IndexError
      else
        (* lines 49-50: [if key < 0: index = len(layers) + key] *)
        let index := if key <? 0 then Some (len layers + key) else None in
        (* line 51: [index = key], unconditionally *)
        let index := key in
        inr index
  | KStr key =>
      match name_scan layers 0 key None with
      | None => inl ValueError
      | Some index => inr index
      end
  | _ => inl TypeError
  end.

(** ** Network_Indexer.get_item (models.py, lines 24-39) *)

(** What [get_item] hands back: a bare layer ([layers[i]]), the raw Python
    list produced by slicing, or a new [Sequential] built from that list. *)
Inductive item : Type :=
| ILayer (l : layer)
| IList (ls : list layer)
| ISeq (ls : list layer).

(** Lines 29-34: resolution of the slice bounds and [layers[start:stop]].
    Only string bounds go through [get_layer_index]; int bounds and [None]
    are handed to Python slicing as they are. *)
Definition get_slice (layers : list layer) (start stop : option bound)
    : exn + list layer :=
  let start_r :=
    match start with
    | Some (BStr s) =>
        match get_layer_index layers (KStr s) with
        | inl e => inl e | inr i => inr (Some i) end
    | Some (BInt z) => inr (Some z)
    | None => inr None
    end in
  match start_r with
  | inl e => inl e
  | inr start' =>
      let stop_r :=
        match stop with
        | Some (BStr s) =>
            match get_layer_index layers (KStr s) with
            | inl e => inl e | inr i => inr (Some (i + 1)) end
        | Some (BInt z) => inr (Some z)
        | None => inr None
        end in
      match stop_r with
      | inl e => inl e
      | inr stop' => inr (py_slice layers start' stop')
      end
  end.

Definition get_item (layers : list layer) (k : key) : exn + item :=
  match k with
  | KInt _ | KStr _ =>
      match get_layer_index layers k with
      | inl e => inl e
      | inr i =>
          match py_index layers i with
          | inl e => inl e
          | inr l => inr (ILayer l)
          end
      end
  | KSlice start stop =>
      match get_slice layers start stop with
      | inl e => inl e
      | inr it =>
          if 1 <? len it then inr (ISeq it) else inr (IList it)
      end
  | KOther => inl IndexError
  end.

(** ** Network_Indexer.indexable_call (models.py, lines 62-90) *)

(** [layers[l](inputs)]: the call of one layer, logged with its position. *)
Definition call_layer (layers : list layer) (l : Z) (inputs : T) : M T :=
  lay <- lift (py_index layers l) ;;
  fun log => (inr (lapply lay inputs), log ++ [l]).

(** The loop of lines 83-89 over the positions [ls] ([range(last+1)]). *)
Fixpoint forward_loop (layers : list layer) (start last : Z) (ls : list Z)
    (inputs : T) (outputs : option T) : M (option T) :=
  match ls with
  | [] => ret outputs
  | l :: ls' =>
      if l <? start then forward_loop layers start last ls' inputs outputs
      else
        out <- call_layer layers l inputs ;;
        if l =? last then ret (Some out)
        else forward_loop layers start last ls' out (Some out)
  end.

(** Lines 78-80: [start] is 0 unless [start_layer] is given. *)
Definition resolve_start (layers : list layer) (start_layer : option key)
    : exn + Z :=
  match start_layer with
  | None => inr 0
  | Some k => get_layer_index layers k
  end.

(** Lines 78, 81-82: [last] is [len(layers)-1] unless [last_layer] is given. *)
Definition resolve_last (layers : list layer) (last_layer : option key)
    : exn + Z :=
  match last_layer with
  | None => inr (len layers - 1)
  | Some k => get_layer_index layers k
  end.

Definition indexable_call (layers : list layer) (inputs : T)
    (start_layer last_layer : option key) : M (option T) :=
  let outputs := None in
  start <- lift (resolve_start layers start_layer) ;;
  last <- lift (resolve_last layers last_layer) ;;
  forward_loop layers start last (py_range (last + 1)) inputs outputs.

(** ** Powered_Sequential / Powered_Model (models.py, lines 93-137) *)

(** [Powered_Sequential.call(inputs, training, start_layer, last_layer)];
    [layers] is [self.layers]. *)
Definition ps_call (layers : list layer) (inputs : T) (training : bool)
    (start_layer last_layer : option key) : M (option T) :=
  indexable_call layers inputs start_layer last_layer.

(** [Powered_Model.call(inputs, training, start_layer, last_layer)]. *)
Definition pm_call (layers : list layer) (inputs : T) (training : bool)
    (start_layer last_layer : option key) : M (option T) :=
  indexable_call layers inputs start_layer last_layer.

Definition ps_getitem (layers : list layer) (k : key) : exn + item :=
  get_item layers k.

(** ** DetectorNet (models.py, lines 195-226) *)

(** [self.layers] of the functional model built from [input_layers] and
    [predictors]: the input stages followed by the predictors, the order the
    layer list of the Keras functional model has (spec, section 3,
    BranchSpec). *)
Definition detector_layers (input_layers predictors : list layer)
    : list layer :=
  input_layers ++ predictors.

(** The loop of lines 218-225 over the branch indices [is]. *)
Fixpoint detector_loop (input_layers predictors : list layer)
    (inputs : list T) (is : list Z) (outputs : list (option T))
    : M (list (option T)) :=
  match is with
  | [] => ret outputs
  | i :: is' =>
      let layers := detector_layers input_layers predictors in
      x <- lift (py_index inputs i) ;;
      in_predict <- call_layer layers i x ;;
      let out_layer := i + len input_layers in
      o <- pm_call layers in_predict false
             (Some (KInt out_layer)) (Some (KInt out_layer)) ;;
      detector_loop input_layers predictors inputs is' (outputs ++ [o])
  end.

Definition detector_call (input_layers predictors : list layer)
    (inputs : list T) (training : bool) : M (list (option T)) :=
  detector_loop input_layers predictors inputs (py_range (len inputs)) [].

End Model.

Arguments mk_layer {T}.
Arguments lname {T}.
Arguments lapply {T}.
Arguments name_scan {T}.
Arguments get_layer_index {T}.
Arguments ILayer {T}.
Arguments IList {T}.
Arguments ISeq {T}.
Arguments get_slice {T}.
Arguments get_item {T}.
Arguments call_layer {T}.
Arguments forward_loop {T}.
Arguments resolve_start {T}.
Arguments resolve_last {T}.
Arguments indexable_call {T}.
Arguments ps_call {T}.
Arguments pm_call {T}.
Arguments ps_getitem {T}.
Arguments detector_layers {T}.
Arguments detector_loop {T}.
Arguments detector_call {T}.

(** ** BaseNet.__init__ (models.py, lines 147-181)

    The pretrained VGG16 networks come from the library; they are given by
    the names of their layers ([vgg_notop] for [include_top=False],
    [vgg_top] for [include_top=True]).  Every construction step with an
    effect is recorded as an event. *)
Inductive event : Type :=
| LoadVGG16 (include_top : bool)
| NewMaxPool2D (name : string)
| NewConv2D (name : string)
| ModelInit (name : string) (layer_names : list string)
| SetWeights (pos : Z).

Definition vgg16_aliases : list string := ["VGG16"; "VGG-16"; "VGG_16"]%string.

Definition basenet_init (vgg_notop vgg_top : list string)
    (architecture name : string) : (exn + list string) * list event :=
  if existsb (String.eqb architecture) vgg16_aliases then
    (* 1.1 *)
    let ev := [LoadVGG16 false] in
    let base_layers := py_slice vgg_notop (Some 0) (Some (-1)) in
    (* 1.2 *)
    let ev := ev ++ [LoadVGG16 true] in
    let head_layers := py_slice vgg_top (Some (-3)) None in
    (* 2 *)
    match py_index vgg_notop (-1) with
    | inl e => (inl e, ev)
    | inr last_name =>
        let base_layers :=
          base_layers ++ [last_name; "head_conv6"%string; "head_conv7"%string] in
        let ev := ev ++ [NewMaxPool2D last_name; NewConv2D "head_conv6";
                         NewConv2D "head_conv7"] in
        (* 3 *)
        let ev := ev ++ [ModelInit name base_layers] in
        (* 4 *)
        match py_index head_layers 0, py_index head_layers 1 with
        | inr _, inr _ => (inr base_layers, ev ++ [SetWeights (-2); SetWeights (-1)])
        | _, _ => (inl IndexError, ev)
        end
    end
  else (inl TypeError, []).

(** ** Reference functions for the statements *)

(** Chaining a list of layers: [x := layer(x)] for each layer in order. *)
Definition chain {T} (ls : list (layer T)) (x : T) : T :=
  fold_left (fun acc l => lapply l acc) ls x.

(** Branch outputs of the multi-branch detector as the spec describes them:
    [p_i(s_i(x_i))] for each branch, in order. *)
Fixpoint branch_outputs {T} (stages preds : list (layer T)) (xs : list T)
    : list T :=
  match stages, preds, xs with
  | s :: ss, p :: ps, x :: xs' => lapply p (lapply s x) :: branch_outputs ss ps xs'
  | _, _, _ => []
  end.

(** Positions invoked by the detector: [i] (the input stage) then
    [i + len(stages)] (the predictor), for each branch [i]. *)
Definition branch_trace (nstages : Z) (is : list Z) : list Z :=
  flat_map (fun i => [i; i + nstages]) is.

(** ** Concrete layers used by the examples below (tensors are integers). *)
Definition conv1 : layer Z := mk_layer "conv1" (fun x => x + 1).
Definition conv2 : layer Z := mk_layer "conv2" (fun x => 2 * x).
Definition pool : layer Z := mk_layer "pool" (fun x => x - 3).
Definition three_layers : list (layer Z) := [conv1; conv2; pool].
Definition s0 : layer Z := mk_layer "s0" (fun x => x + 10).
Definition s1 : layer Z := mk_layer "s1" (fun x => x * 3).
Definition p0 : layer Z := mk_layer "p0" (fun x => x - 1).
Definition p1 : layer Z := mk_layer "p1" (fun x => x * x).

Example ex_index_name : get_layer_index three_layers (KStr "conv2") = inr 1.
Proof. reflexivity. Qed.

Example ex_call_full :
  indexable_call three_layers 5 None None [] = (inr (Some 9), [0; 1; 2]).
Proof. reflexivity. Qed.

Example ex_call_mid :
  indexable_call three_layers 5 (Some (KInt 1)) (Some (KInt 1)) [] = (inr (Some 10), [1]).
Proof. reflexivity. Qed.

Example ex_basenet_vgg16 :
  basenet_init ["input_1"; "block5_conv3"; "block5_pool"]%string
    ["fc1"; "fc2"; "predictions"]%string "VGG-16" "BaseNet"
  = (inr ["input_1"; "block5_conv3"; "block5_pool"; "head_conv6"; "head_conv7"]%string,
     [LoadVGG16 false; LoadVGG16 true; NewMaxPool2D "block5_pool";
      NewConv2D "head_conv6"; NewConv2D "head_conv7";
      ModelInit "BaseNet" ["input_1"; "block5_conv3"; "block5_pool";
                           "head_conv6"; "head_conv7"]%string;
      SetWeights (-2); SetWeights (-1)]).
Proof. reflexivity. Qed.

(** * Properties of the Python helpers *)

Lemma zseq_app : forall m n a,
  zseq a (m + n) = zseq a m ++ zseq (a + Z.of_nat m) n.
Proof.
  induction m as [|m IH]; intros n a; simpl.
  - now rewrite Z.add_0_r.
  - rewrite IH. do 3 f_equal. lia.
Qed.

Lemma in_zseq : forall n a y, In y (zseq a n) -> a <= y < a + Z.of_nat n.
Proof.
  induction n as [|n IH]; intros a y Hin; simpl in Hin.
  - contradiction.
  - destruct Hin as [<- | Hin]; [lia|].
    apply IH in Hin. lia.
Qed.

Lemma py_index_nth {A} (xs : list A) i :
  0 <= i < len xs ->
  exists a, nth_error xs (Z.to_nat i) = Some a /\ py_index xs i = inr a.
Proof.
  intros Hi. unfold py_index, len in *.
  destruct (nth_error xs (Z.to_nat i)) as [a|] eqn:E.
  - exists a. split; [reflexivity|]. cbv zeta.
    replace (i <? 0) with false by (symmetry; apply Z.ltb_ge; lia).
    replace (Z.of_nat (List.length xs) <=? i) with false
      by (symmetry; apply Z.leb_gt; lia).
    replace (i <? 0) with false by (symmetry; apply Z.ltb_ge; lia).
    simpl orb. try rewrite E. reflexivity.
  - exfalso.
    assert (nth_error xs (Z.to_nat i) <> None) by (apply nth_error_Some; lia).
    congruence.
Qed.

Lemma skipn_nth_cons {A} (l : list A) n x :
  nth_error l n = Some x -> skipn n l = x :: skipn (S n) l.
Proof.
  revert n. induction l as [|y l IH]; intros [|n] H; simpl in *;
    try discriminate.
  - now inversion H.
  - now apply IH.
Qed.

Lemma firstn_snoc {A} (l : list A) k x :
  nth_error l k = Some x -> firstn (S k) l = firstn k l ++ [x].
Proof.
  revert k. induction l as [|y l IH]; intros [|k] H; simpl in *;
    try discriminate.
  - inversion H; subst. now destruct l.
  - f_equal. now apply IH.
Qed.

(** * Properties of the indexer *)

Section Indexer.

Variable T : Type.
Implicit Types (layers : list (layer T)) (x : T).

Lemma get_layer_index_int layers k :
  0 <= k < len layers -> get_layer_index layers (KInt k) = inr k.
Proof.
  intros Hk. simpl.
  replace (len layers <=? k) with false by (symmetry; apply Z.leb_gt; lia).
  reflexivity.
Qed.

Lemma call_layer_ok layers l x L log :
  py_index layers l = inr L ->
  call_layer layers l x log = (inr (lapply L x), log ++ [l]).
Proof. intros H. unfold call_layer, bind, lift. now rewrite H. Qed.

(** Positions before [start] are skipped without invoking anything. *)
Lemma forward_loop_skip layers s last m n a x o log :
  a + Z.of_nat m <= s ->
  forward_loop layers s last (zseq a (m + n)) x o log
  = forward_loop layers s last (zseq (a + Z.of_nat m) n) x o log.
Proof.
  revert a. induction m as [|m IH]; intros a Ha.
  - simpl. now rewrite Z.add_0_r.
  - simpl. replace (a <? s) with true by (symmetry; apply Z.ltb_lt; lia).
    rewrite IH by lia. do 2 f_equal. lia.
Qed.

(** A loop whose positions all precede [start] invokes nothing and returns
    the initial [outputs]. *)
Lemma forward_loop_none layers s last ls x o log :
  (forall y, In y ls -> y < s) ->
  forward_loop layers s last ls x o log = (inr o, log).
Proof.
  revert x o. induction ls as [|l ls IH]; intros x o Hall; simpl.
  - reflexivity.
  - replace (l <? s) with true by (symmetry; apply Z.ltb_lt; apply Hall; now left).
    apply IH. intros y Hy. apply Hall. now right.
Qed.

(** From [start] on, the loop chains the layers up to [last] and stops. *)
Lemma forward_loop_run layers s last n a x o log :
  s <= a -> 0 <= a -> last = a + Z.of_nat n -> last < len layers ->
  forward_loop layers s last (zseq a (S n)) x o log
  = (inr (Some (chain (firstn (S n) (skipn (Z.to_nat a) layers)) x)),
     log ++ zseq a (S n)).
Proof.
  revert a x o log. induction n as [|n IH]; intros a x o log Hs Ha Hl Hlen.
  - destruct (py_index_nth layers a) as [L [HL HP]]; [lia|].
    simpl. replace (a <? s) with false by (symmetry; apply Z.ltb_ge; lia).
    unfold bind. rewrite (call_layer_ok _ _ _ _ _ HP).
    replace (a =? last) with true by (symmetry; apply Z.eqb_eq; lia).
    rewrite (skipn_nth_cons _ _ _ HL). reflexivity.
  - destruct (py_index_nth layers a) as [L [HL HP]]; [lia|].
    change (zseq a (S (S n))) with (a :: zseq (a + 1) (S n)).
    cbn [forward_loop].
    replace (a <? s) with false by (symmetry; apply Z.ltb_ge; lia).
    unfold bind. rewrite (call_layer_ok _ _ _ _ _ HP).
    replace (a =? last) with false by (symmetry; apply Z.eqb_neq; lia).
    rewrite IH by lia.
    rewrite (skipn_nth_cons _ _ _ HL).
    replace (Z.to_nat (a + 1)) with (S (Z.to_nat a)) by lia.
    rewrite <- app_assoc. reflexivity.
Qed.

(** [indexable_call] with two valid non-negative int keys [k1 <= k2]. *)
Lemma indexable_call_int_range layers x k1 k2 log :
  0 <= k1 <= k2 -> k2 < len layers ->
  indexable_call layers x (Some (KInt k1)) (Some (KInt k2)) log
  = (inr (Some (chain (firstn (Z.to_nat (k2 - k1 + 1))
                         (skipn (Z.to_nat k1) layers)) x)),
     log ++ zseq k1 (Z.to_nat (k2 - k1 + 1))).
Proof.
  intros Hk Hlen. unfold indexable_call, bind, lift, ret. simpl resolve_start.
  unfold resolve_start, resolve_last.
  rewrite !get_layer_index_int by lia.
  unfold py_range.
  replace (Z.to_nat (k2 + 1)) with (Z.to_nat k1 + S (Z.to_nat (k2 - k1)))%nat by lia.
  rewrite forward_loop_skip by lia.
  replace (Z.to_nat (k2 - k1 + 1)) with (S (Z.to_nat (k2 - k1))) by lia.
  simpl Z.of_nat. rewrite Z2Nat.id by lia.
  apply forward_loop_run; lia.
Qed.

(** The scan of lines 53-55 leaves [index] untouched when no name matches,
    and otherwise ends on the last matching position. *)
Lemma name_scan_cases layers l key idx :
  (Forall (fun L => lname L <> key) layers /\ name_scan layers l key idx = idx)
  \/ (exists j L, nth_error layers j = Some L /\ lname L = key
        /\ name_scan layers l key idx = Some (l + Z.of_nat j)
        /\ forall j' L', (j < j')%nat -> nth_error layers j' = Some L' ->
                         lname L' <> key).
Proof.
  revert l idx. induction layers as [|L rest IH]; intros l idx.
  - left. split; [constructor | reflexivity].
  - simpl. destruct (IH (l + 1) (if String.eqb (lname L) key then Some l else idx))
      as [[Hnone Hscan] | [j [L' [Hj [HL' [Hscan Hlast]]]]]].
    + rewrite Hscan. destruct (String.eqb_spec (lname L) key) as [Heq | Hneq].
      * right. exists O, L. repeat split; [assumption | now rewrite Z.add_0_r |].
        intros [|j'] L'' Hlt Hj'; [lia|]. simpl in Hj'.
        rewrite Forall_forall in Hnone. apply Hnone. eapply nth_error_In; eauto.
      * left. split; [constructor; assumption | reflexivity].
    + right. exists (S j), L'. repeat split; try assumption.
      * rewrite Hscan. f_equal. lia.
      * intros [|j''] L'' Hlt Hj''; [lia|]. simpl in Hj''.
        apply (Hlast j''); [lia | assumption].
Qed.

(** A name resolved by [get_layer_index] is a valid position holding a layer
    of that name. *)
Lemma get_layer_index_name_valid layers key i :
  get_layer_index layers (KStr key) = inr i ->
  0 <= i < len layers /\
  exists L, nth_error layers (Z.to_nat i) = Some L /\ lname L = key.
Proof.
  simpl. destruct (name_scan_cases layers 0 key None)
    as [[_ ->] | [j [L [Hj [HL [-> _]]]]]]; [discriminate|].
  intros H; inversion H; subst i. split.
  - assert (j < List.length layers)%nat by (apply nth_error_Some; congruence).
    unfold len. lia.
  - exists L. rewrite ?Z.add_0_l, Nat2Z.id. split; assumption.
Qed.

Lemma py_slice_none_start {A} (l : list A) e :
  py_slice l None e = py_slice l (Some 0) e.
Proof.
  unfold py_slice, slice_adjust, len. simpl.
  now rewrite Z.min_l by lia.
Qed.

Lemma py_slice_none_stop {A} (l : list A) st :
  py_slice l st None = py_slice l st (Some (len l)).
Proof.
  unfold py_slice, slice_adjust, len.
  replace (Z.of_nat (List.length l) <? 0) with false by (symmetry; apply Z.ltb_ge; lia).
  now rewrite Z.min_id.
Qed.

(** Slicing between two valid positions [i <= j] (with exclusive stop
    [j + 1]) ends with the layer at [j]. *)
Lemma py_slice_ends_at {A} (l : list A) i j (y : A) :
  0 <= i <= j -> j < len l -> nth_error l (Z.to_nat j) = Some y ->
  exists pre, py_slice l (Some i) (Some (j + 1)) = pre ++ [y].
Proof.
  intros Hij Hj Hy. unfold py_slice, slice_adjust.
  replace (i <? 0) with false by (symmetry; apply Z.ltb_ge; lia).
  replace (j + 1 <? 0) with false by (symmetry; apply Z.ltb_ge; lia).
  rewrite (Z.min_l i) by lia. rewrite (Z.min_l (j + 1)) by lia.
  replace (Z.to_nat (j + 1 - i)) with (S (Z.to_nat (j - i))) by lia.
  exists (firstn (Z.to_nat (j - i)) (skipn (Z.to_nat i) l)).
  apply firstn_snoc. rewrite nth_error_skipn.
  replace (Z.to_nat i + Z.to_nat (j - i))%nat with (Z.to_nat j) by lia.
  exact Hy.
Qed.

Lemma slice_adjust_range n w :
  0 <= n -> 0 <= slice_adjust n w <= n.
Proof. intros Hn. unfold slice_adjust. destruct (Z.ltb_spec w 0); lia. Qed.

(** A start bound acts as its adjusted value. *)
Lemma py_slice_start_adjust {A} (l : list A) w e :
  py_slice l (Some w) e = py_slice l (Some (slice_adjust (len l) w)) e.
Proof.
  unfold py_slice. cbv zeta.
  assert (Hr := slice_adjust_range (len l) w ltac:(unfold len; lia)).
  assert (Hid : slice_adjust (len l) (slice_adjust (len l) w) = slice_adjust (len l) w).
  { unfold slice_adjust at 1.
    replace (slice_adjust (len l) w <? 0) with false by (symmetry; apply Z.ltb_ge; lia).
    lia. }
  now rewrite Hid.
Qed.

(** One branch after another, the detector loop runs input stage [a] then
    predictor [len(stages) + a] and appends the predictor's output. *)
Lemma detector_loop_run (stages preds : list (layer T)) (xs : list T) :
  len preds = len stages -> len xs = len stages ->
  forall m a outs log, 0 <= a -> a + Z.of_nat m = len stages ->
  detector_loop stages preds xs (zseq a m) outs log
  = (inr (outs ++ map Some (branch_outputs (skipn (Z.to_nat a) stages)
                              (skipn (Z.to_nat a) preds) (skipn (Z.to_nat a) xs))),
     log ++ branch_trace (len stages) (zseq a m)).
Proof.
  intros Hp Hx. unfold len in *.
  induction m as [|m IH]; intros a outs log Ha Ham.
  - simpl. rewrite !app_nil_r.
    rewrite (skipn_all2 stages), (skipn_all2 preds), (skipn_all2 xs) by lia.
    simpl. now rewrite app_nil_r.
  - destruct (nth_error stages (Z.to_nat a)) as [st|] eqn:Es;
      [| exfalso; apply nth_error_None in Es; lia].
    destruct (nth_error preds (Z.to_nat a)) as [pr|] eqn:Ep;
      [| exfalso; apply nth_error_None in Ep; lia].
    destruct (nth_error xs (Z.to_nat a)) as [x|] eqn:Ex;
      [| exfalso; apply nth_error_None in Ex; lia].
    destruct (py_index_nth xs a) as [x' [Ex' Hpx]]; [unfold len; lia|].
    rewrite Ex in Ex'. inversion Ex'; subst x'.
    destruct (py_index_nth (detector_layers stages preds) a) as [st' [Es' Hps]];
      [unfold len, detector_layers; rewrite length_app; lia|].
    unfold detector_layers in Es'. rewrite nth_error_app1 in Es' by lia.
    rewrite Es in Es'. inversion Es'; subst st'.
    change (zseq a (S m)) with (a :: zseq (a + 1) m). cbn [detector_loop].
    unfold bind at 1, lift at 1. rewrite Hpx. unfold ret at 1.
    unfold bind at 1. rewrite (call_layer_ok _ _ _ _ _ Hps).
    unfold bind at 1, pm_call.
    rewrite (indexable_call_int_range (detector_layers stages preds))
      by (unfold len, detector_layers; try rewrite length_app; lia).
    unfold len.
    replace (Z.to_nat (a + Z.of_nat (List.length stages)
                       - (a + Z.of_nat (List.length stages)) + 1)) with 1%nat by lia.
    unfold detector_layers.
    rewrite (skipn_nth_cons (stages ++ preds) _ pr)
      by (rewrite nth_error_app2 by lia;
          replace (Z.to_nat (a + Z.of_nat (List.length stages)) - List.length stages)%nat
            with (Z.to_nat a) by lia; exact Ep).
    rewrite IH by lia.
    rewrite (skipn_nth_cons stages _ st Es), (skipn_nth_cons preds _ pr Ep),
      (skipn_nth_cons xs _ x Ex).
    replace (Z.to_nat (a + 1)) with (S (Z.to_nat a)) by lia.
    simpl. rewrite <- !app_assoc. reflexivity.
Qed.

End Indexer.

(** * Further properties of the indexer *)

Section Indexer2.

Variable T : Type.
Implicit Types (layers : list (layer T)) (x : T).

Lemma py_index_negative {A} (xs : list A) i :
  i < 0 -> 0 <= len xs + i -> py_index xs i = py_index xs (len xs + i).
Proof.
  intros Hi Hn. unfold py_index. cbv zeta.
  destruct (i <? 0) eqn:E1; [|apply Z.ltb_ge in E1; lia].
  cbv iota beta.
  destruct (len xs + i <? 0) eqn:E2; [apply Z.ltb_lt in E2; lia|].
  rewrite ?E2. reflexivity.
Qed.

Lemma py_index_below {A} (xs : list A) i :
  i < - len xs -> py_index xs i = inl IndexError.
Proof.
  intros Hi. unfold py_index. cbv zeta.
  destruct (i <? 0) eqn:E1; [|apply Z.ltb_ge in E1; unfold len in *; lia].
  cbv iota beta.
  destruct (len xs + i <? 0) eqn:E2; [reflexivity|apply Z.ltb_ge in E2; lia].
Qed.

(** The resolved [last] is always below [len(layers)]. *)
Lemma resolve_last_bound layers lk l :
  resolve_last layers lk = inr l -> l < len layers.
Proof.
  destruct lk as [[k|s| |]|]; simpl; try discriminate.
  - destruct (len layers <=? k) eqn:E; [discriminate|].
    intros H; inversion H; subst. apply Z.leb_gt in E. lia.
  - intros H. apply (get_layer_index_name_valid T layers s l H).
  - intros H; inversion H; lia.
Qed.

Lemma chain_app ls1 ls2 x :
  chain (ls1 ++ ls2) x = chain ls2 (chain ls1 x).
Proof. unfold chain. apply fold_left_app. Qed.

(** [indexable_call] for any resolved [start] and [last]: it runs positions
    [max(0, start) .. last] and returns the last output, or returns [None]
    and runs nothing when that range is empty. *)
Lemma indexable_call_resolved layers x sk lk s l log :
  resolve_start layers sk = inr s -> resolve_last layers lk = inr l ->
  indexable_call layers x sk lk log
  = if Z.max 0 s <=? l then
      (inr (Some (chain (firstn (Z.to_nat (l - Z.max 0 s + 1))
                           (skipn (Z.to_nat (Z.max 0 s)) layers)) x)),
       log ++ zseq (Z.max 0 s) (Z.to_nat (l - Z.max 0 s + 1)))
    else (inr None, log).
Proof.
  intros Hs Hl. pose proof (resolve_last_bound layers lk l Hl) as Hlen.
  unfold indexable_call, bind, lift, ret. rewrite Hs, Hl. unfold py_range.
  set (a := Z.max 0 s).
  destruct (a <=? l) eqn:E.
  - apply Z.leb_le in E.
    replace (Z.to_nat (l + 1)) with (Z.to_nat a + S (Z.to_nat (l - a)))%nat by lia.
    assert (Hskip : forall k o,
      forward_loop layers s l (zseq 0 (Z.to_nat a + k)) x o log
      = forward_loop layers s l (zseq a k) x o log).
    { intros k o. destruct (Z_le_gt_dec s 0) as [Hs0 | Hs0].
      - replace a with 0 by lia. reflexivity.
      - rewrite forward_loop_skip by lia. do 3 f_equal. lia. }
    rewrite Hskip.
    replace (Z.to_nat (l - a + 1)) with (S (Z.to_nat (l - a))) by lia.
    apply forward_loop_run; lia.
  - apply Z.leb_gt in E. apply forward_loop_none.
    intros y Hy. apply in_zseq in Hy. lia.
Qed.

Lemma firstn_skipn_add {A} (l : list A) (n m : nat) :
  firstn (n + m) l = firstn n l ++ firstn m (skipn n l).
Proof.
  revert l. induction n as [|n IH]; intros [|y l]; simpl; try reflexivity.
  - now rewrite firstn_nil.
  - f_equal. apply IH.
Qed.

Lemma get_item_int_valid layers i :
  0 <= i < len layers ->
  exists L, nth_error layers (Z.to_nat i) = Some L /\
    get_item layers (KInt i) = inr (ILayer L).
Proof.
  intros Hi. destruct (py_index_nth layers i Hi) as [L [HL HP]].
  exists L. split; [exact HL|]. unfold get_item.
  rewrite get_layer_index_int by lia. now rewrite HP.
Qed.

End Indexer2.

Section Detector2.

Variable T : Type.

(** The first [m] branches of the detector loop, followed by any remaining
    indices [rest]. *)
Lemma detector_loop_prefix (stages preds : list (layer T)) (xs : list T) :
  len preds = len stages ->
  forall m a rest outs log, 0 <= a ->
  a + Z.of_nat m <= len stages -> a + Z.of_nat m <= len xs ->
  detector_loop stages preds xs (zseq a m ++ rest) outs log
  = detector_loop stages preds xs rest
      (outs ++ map Some (branch_outputs (firstn m (skipn (Z.to_nat a) stages))
                           (skipn (Z.to_nat a) preds) (skipn (Z.to_nat a) xs)))
      (log ++ branch_trace (len stages) (zseq a m)).
Proof.
  intros Hp. unfold len in *.
  induction m as [|m IH]; intros a rest outs log Ha Hs Hx.
  - simpl. now rewrite !app_nil_r.
  - destruct (nth_error stages (Z.to_nat a)) as [st|] eqn:Es;
      [| exfalso; apply nth_error_None in Es; lia].
    destruct (nth_error preds (Z.to_nat a)) as [pr|] eqn:Ep;
      [| exfalso; apply nth_error_None in Ep; lia].
    destruct (nth_error xs (Z.to_nat a)) as [x|] eqn:Ex;
      [| exfalso; apply nth_error_None in Ex; lia].
    destruct (py_index_nth xs a) as [x' [Ex' Hpx]]; [unfold len; lia|].
    rewrite Ex in Ex'. inversion Ex'; subst x'.
    destruct (py_index_nth (detector_layers stages preds) a) as [st' [Es' Hps]];
      [unfold len, detector_layers; rewrite length_app; lia|].
    unfold detector_layers in Es'. rewrite nth_error_app1 in Es' by lia.
    rewrite Es in Es'. inversion Es'; subst st'.
    change (zseq a (S m) ++ rest) with (a :: (zseq (a + 1) m ++ rest)).
    cbn [detector_loop].
    unfold bind at 1, lift at 1. rewrite Hpx. unfold ret at 1.
    unfold bind at 1. rewrite (call_layer_ok _ _ _ _ _ _ Hps).
    unfold bind at 1, pm_call.
    rewrite (indexable_call_int_range T (detector_layers stages preds))
      by (unfold len, detector_layers; try rewrite length_app; lia).
    unfold len.
    replace (Z.to_nat (a + Z.of_nat (List.length stages)
                       - (a + Z.of_nat (List.length stages)) + 1)) with 1%nat by lia.
    unfold detector_layers.
    rewrite (skipn_nth_cons (stages ++ preds) _ pr)
      by (rewrite nth_error_app2 by lia;
          replace (Z.to_nat (a + Z.of_nat (List.length stages)) - List.length stages)%nat
            with (Z.to_nat a) by lia; exact Ep).
    rewrite IH by lia.
    rewrite (skipn_nth_cons stages _ st Es), (skipn_nth_cons preds _ pr Ep),
      (skipn_nth_cons xs _ x Ex).
    replace (Z.to_nat (a + 1)) with (S (Z.to_nat a)) by lia.
    simpl. rewrite <- !app_assoc. reflexivity.
Qed.

Lemma branch_outputs_firstn (ss ps : list (layer T)) (xs : list T) :
  (List.length xs <= List.length ss)%nat ->
  branch_outputs (firstn (List.length xs) ss) ps xs = branch_outputs ss ps xs.
Proof.
  revert ss ps. induction xs as [|x xs IH]; intros ss ps Hl.
  - simpl. destruct ss as [|s ss]; [reflexivity|]. destruct ps; reflexivity.
  - destruct ss as [|s ss]; simpl in Hl; [lia|].
    simpl. destruct ps as [|p ps]; [reflexivity|]. f_equal. apply IH. lia.
Qed.

End Detector2.

(** * Claims *)

(** C1 (corrected): when the resolved positions satisfy [start > last],
    [indexable_call] raises nothing: it invokes no layer and returns [None],
    the initial value of [outputs]. *)
Theorem indexable_call_start_after_last {T} (layers : list (layer T)) (x : T)
    (start_layer last_layer : option key) (start last : Z) (log : list Z) :
  resolve_start layers start_layer = inr start ->
  resolve_last layers last_layer = inr last ->
  last < start ->
  indexable_call layers x start_layer last_layer log = (inr None, log).
Proof.
  intros Hs Hl Hlt. unfold indexable_call, bind, lift, ret.
  rewrite Hs, Hl. apply forward_loop_none.
  intros y Hy. unfold py_range in Hy. apply in_zseq in Hy. lia.
Qed.

Lemma indexable_call_start_after_last_witness :
  resolve_start three_layers (Some (KInt 2)) = inr 2 /\
  resolve_last three_layers (Some (KInt 1)) = inr 1 /\ 1 < 2 /\
  indexable_call three_layers 5 (Some (KInt 2)) (Some (KInt 1)) [] = (inr None, []).
Proof.
  split; [reflexivity|]. split; [reflexivity|]. split; [lia|].
  apply (indexable_call_start_after_last three_layers 5 _ _ 2 1 []);
    [reflexivity | reflexivity | lia].
Defined.

(** C1 counterexample: [call(x, start=2, last=1)] on three layers returns
    [None] and raises no error. *)
Lemma indexable_call_start_after_last_no_error :
  indexable_call three_layers 5 (Some (KInt 2)) (Some (KInt 1)) [] = (inr None, [])
  /\ ~ (exists e log, indexable_call three_layers 5 (Some (KInt 2)) (Some (KInt 1)) []
                      = (inl e, log)).
Proof.
  split; [reflexivity|]. intros [e [log H]]. discriminate H.
Qed.

(** C2 (code_bug): line 51 overwrites the normalised index, so a negative
    int key resolves to itself: [-1] on three layers gives [-1] (not [2])
    and [-5] gives [-5] (not IndexError); as a start key, [-1] makes the
    call run every layer from position 0. *)
Theorem get_layer_index_negative_unnormalised :
  get_layer_index three_layers (KInt (-1)) = inr (-1) /\
  get_layer_index three_layers (KInt (-5)) = inr (-5) /\
  indexable_call three_layers 5 (Some (KInt (-1))) None [] = (inr (Some 9), [0; 1; 2]).
Proof. repeat split; reflexivity. Qed.

(** C3 (corrected): a slice whose sub-sequence has at most one element is
    returned as the raw Python list (a one-element list, not the bare
    layer); a sub-sequence of more than one element is wrapped into a new
    [Sequential]. *)
Theorem get_item_slice_shape {T} (layers : list (layer T))
    (start stop : option bound) (sub : list (layer T)) :
  get_slice layers start stop = inr sub ->
  ((List.length sub <= 1)%nat -> get_item layers (KSlice start stop) = inr (IList sub)) /\
  ((1 < List.length sub)%nat -> get_item layers (KSlice start stop) = inr (ISeq sub)).
Proof.
  intros H. simpl. rewrite H. unfold len. split; intros Hl.
  - replace (1 <? Z.of_nat (List.length sub)) with false
      by (symmetry; apply Z.ltb_ge; lia). reflexivity.
  - replace (1 <? Z.of_nat (List.length sub)) with true
      by (symmetry; apply Z.ltb_lt; lia). reflexivity.
Qed.

Lemma get_item_slice_shape_witness :
  get_slice three_layers (Some (BInt 0)) (Some (BInt 1)) = inr [conv1] /\
  get_item three_layers (KSlice (Some (BInt 0)) (Some (BInt 1))) = inr (IList [conv1]).
Proof.
  split; [reflexivity|].
  apply (proj1 (get_item_slice_shape three_layers (Some (BInt 0)) (Some (BInt 1))
                  [conv1] eq_refl)).
  simpl. lia.
Defined.

(** C3 counterexample: [layers[0:1]] is a one-element list, not the layer. *)
Lemma get_item_single_slice_not_layer :
  get_item three_layers (KSlice (Some (BInt 0)) (Some (BInt 1))) = inr (IList [conv1])
  /\ ~ (exists L, get_item three_layers (KSlice (Some (BInt 0)) (Some (BInt 1)))
                  = inr (ILayer L)).
Proof. split; [reflexivity|]. intros [L H]. discriminate H. Qed.

(** C4: with valid positions [0 <= k1 <= k2 < len(layers)], the call invokes
    exactly the positions [k1, k1+1, ..., k2] in ascending order, chains the
    running value through them, and returns the output of layer [k2]. *)
Theorem indexable_call_valid_range {T} (layers : list (layer T)) (x : T)
    (k1 k2 : Z) (log : list Z) :
  0 <= k1 <= k2 -> k2 < len layers ->
  indexable_call layers x (Some (KInt k1)) (Some (KInt k2)) log
  = (inr (Some (chain (firstn (Z.to_nat (k2 - k1 + 1))
                         (skipn (Z.to_nat k1) layers)) x)),
     log ++ zseq k1 (Z.to_nat (k2 - k1 + 1))).
Proof. apply indexable_call_int_range. Qed.

Lemma indexable_call_valid_range_witness :
  (0 <= 1 <= 2 /\ 2 < len three_layers) /\
  indexable_call three_layers 5 (Some (KInt 1)) (Some (KInt 2)) [7]
  = (inr (Some (chain [conv2; pool] 5)), [7; 1; 2]).
Proof.
  split; [split; [lia | vm_compute; reflexivity]|].
  apply (indexable_call_valid_range three_layers 5 1 2 [7]);
    [lia | vm_compute; reflexivity].
Defined.

(** C5: name resolution scans the whole sequence: it fails with ValueError
    exactly when no layer has the name, and otherwise returns the position
    of the last layer with that name. *)
Theorem get_layer_index_name_last_match {T} (layers : list (layer T)) (key : string) :
  (get_layer_index layers (KStr key) = inl ValueError
     <-> Forall (fun L => lname L <> key) layers) /\
  (forall i, get_layer_index layers (KStr key) = inr i <->
     (0 <= i /\ exists L, nth_error layers (Z.to_nat i) = Some L /\ lname L = key
        /\ forall j L', (Z.to_nat i < j)%nat -> nth_error layers j = Some L' ->
                        lname L' <> key)).
Proof.
  simpl. destruct (name_scan_cases T layers 0 key None)
    as [[Hnone ->] | [j [L [Hj [HL [-> Hlast]]]]]].
  - split; [split; auto|]. intros i. split; [discriminate|].
    intros [_ [L [HL [Hname _]]]]. rewrite Forall_forall in Hnone.
    exfalso. apply (Hnone L); [eapply nth_error_In; eauto | assumption].
  - split.
    + split; [discriminate|]. intros Hnone. rewrite Forall_forall in Hnone.
      exfalso. apply (Hnone L); [eapply nth_error_In; eauto | assumption].
    + intros i. split.
      * intros H. inversion H; subst i. split; [lia|].
        exists L. rewrite ?Z.add_0_l, Nat2Z.id. repeat split; auto.
      * intros [Hi [L2 [HL2 [Hname2 Hlast2]]]].
        destruct (Nat.lt_total j (Z.to_nat i)) as [Hlt | [Heq | Hgt]].
        -- exfalso. apply (Hlast _ _ Hlt HL2 Hname2).
        -- f_equal. lia.
        -- exfalso. apply (Hlast2 _ _ Hgt Hj HL).
Qed.

(** C6: on equal-length [input_layers], [predictors] and [inputs], the
    detector returns [p_i(s_i(x_i))] for every branch in order; branch [i]
    invokes input stage [i] and then only the layer at [i + len(input_layers)]. *)
Theorem detector_call_branches {T} (stages preds : list (layer T)) (xs : list T)
    (training : bool) (log : list Z) :
  List.length preds = List.length stages -> List.length xs = List.length stages ->
  detector_call stages preds xs training log
  = (inr (map Some (branch_outputs stages preds xs)),
     log ++ branch_trace (len stages) (py_range (len xs))).
Proof.
  intros Hp Hx. unfold detector_call, py_range.
  rewrite (detector_loop_run T stages preds xs) by (unfold len in *; lia).
  reflexivity.
Qed.

Lemma detector_call_branches_witness :
  List.length [p0; p1] = List.length [s0; s1] /\
  List.length [1; 2] = List.length [s0; s1] /\
  detector_call [s0; s1] [p0; p1] [1; 2] false []
  = (inr [Some 10; Some 36], [0; 2; 1; 3]).
Proof.
  split; [reflexivity|]. split; [reflexivity|].
  apply (detector_call_branches [s0; s1] [p0; p1] [1; 2] false []);
    reflexivity.
Defined.

(** C7: for every start bound (int, str or missing), a str stop bound [b]
    acts as the int stop [position(b) + 1]; int stop bounds are handed to
    slicing unchanged; a name range ending at [b] ends with the layer named
    [b] whenever its start is not after [b]; a missing start behaves as 0
    and a missing stop as [len(layers)]. *)
Theorem get_slice_bounds {T} (layers : list (layer T)) :
  (forall start b ib, get_layer_index layers (KStr b) = inr ib ->
     get_slice layers start (Some (BStr b))
     = get_slice layers start (Some (BInt (ib + 1)))) /\
  (forall w z, get_slice layers (Some (BInt w)) (Some (BInt z))
               = inr (py_slice layers (Some w) (Some z))) /\
  (forall z, get_slice layers None (Some (BInt z))
             = inr (py_slice layers None (Some z))) /\
  (forall a ia z, get_layer_index layers (KStr a) = inr ia ->
     get_slice layers (Some (BStr a)) (Some (BInt z))
     = inr (py_slice layers (Some ia) (Some z))) /\
  (forall b ib, get_layer_index layers (KStr b) = inr ib ->
     forall start,
       start = None \/
       (exists w, start = Some (BInt w) /\ slice_adjust (len layers) w <= ib) \/
       (exists a ia, start = Some (BStr a) /\
          get_layer_index layers (KStr a) = inr ia /\ ia <= ib) ->
     exists pre L,
       get_slice layers start (Some (BStr b)) = inr (pre ++ [L]) /\
       nth_error layers (Z.to_nat ib) = Some L /\ lname L = b) /\
  (forall stop, get_slice layers None stop = get_slice layers (Some (BInt 0)) stop) /\
  (forall start, get_slice layers start None
                 = get_slice layers start (Some (BInt (len layers)))).
Proof.
  split; [|split; [|split; [|split; [|split; [|split]]]]].
  - intros start b ib Hb. unfold get_slice.
    destruct start as [[w|a]|]; rewrite ?Hb; try destruct (get_layer_index layers (KStr a)); reflexivity.
  - reflexivity.
  - reflexivity.
  - intros a ia z Ha. unfold get_slice. now rewrite Ha.
  - intros b ib Hb start Hst.
    destruct (get_layer_index_name_valid T layers b ib Hb) as [Hib [L [HL HLn]]].
    assert (Hend : forall i, 0 <= i <= ib ->
              exists pre, py_slice layers (Some i) (Some (ib + 1)) = pre ++ [L])
      by (intros i Hi; apply py_slice_ends_at; [lia | lia | exact HL]).
    destruct Hst as [-> | [[w [-> Hw]] | [a [ia [-> [Ha Hia]]]]]];
      unfold get_slice; rewrite Hb.
    + rewrite py_slice_none_start.
      destruct (Hend 0) as [pre Hpre]; [lia|].
      exists pre, L. rewrite Hpre. auto.
    + rewrite py_slice_start_adjust.
      pose proof (slice_adjust_range (len layers) w) as Hr.
      destruct (Hend (slice_adjust (len layers) w)) as [pre Hpre];
        [unfold len in *; lia|].
      exists pre, L. rewrite Hpre. auto.
    + rewrite Ha.
      destruct (get_layer_index_name_valid T layers a ia Ha) as [Hia0 _].
      destruct (Hend ia) as [pre Hpre]; [lia|].
      exists pre, L. rewrite Hpre. auto.
  - intros [[z|s]|]; cbn -[get_layer_index py_slice];
      [| destruct (get_layer_index layers (KStr s)) |];
      rewrite ?py_slice_none_start; reflexivity.
  - intros [[w|s]|]; unfold get_slice;
      [| destruct (get_layer_index layers (KStr s)) |];
      rewrite ?py_slice_none_stop; reflexivity.
Qed.

Lemma get_slice_bounds_witness :
  get_slice three_layers (Some (BInt 0)) (Some (BStr "conv2")) = inr [conv1; conv2] /\
  get_slice three_layers None (Some (BStr "pool")) = inr [conv1; conv2; pool] /\
  get_slice three_layers (Some (BStr "conv2")) (Some (BStr "pool")) = inr [conv2; pool].
Proof.
  destruct (get_slice_bounds three_layers) as [H1 _].
  split; [|split].
  - rewrite (H1 _ "conv2"%string 1 eq_refl). reflexivity.
  - rewrite (H1 _ "pool"%string 2 eq_refl). reflexivity.
  - rewrite (H1 _ "pool"%string 2 eq_refl). reflexivity.
Defined.

(** C8 (corrected): on a non-empty sequence, [call(x)] equals
    [call(x, start=0, last=len-1)]. *)
Theorem indexable_call_default_bounds {T} (layers : list (layer T)) (x : T)
    (log : list Z) :
  layers <> [] ->
  indexable_call layers x None None log
  = indexable_call layers x (Some (KInt 0)) (Some (KInt (len layers - 1))) log.
Proof.
  intros Hne.
  assert (0 < len layers)
    by (destruct layers; [contradiction | unfold len; simpl; lia]).
  unfold indexable_call, resolve_start, resolve_last.
  rewrite !get_layer_index_int by lia. reflexivity.
Qed.

Lemma indexable_call_default_bounds_witness :
  three_layers <> [] /\
  indexable_call three_layers 5 None None []
  = indexable_call three_layers 5 (Some (KInt 0)) (Some (KInt 2)) [].
Proof.
  split; [discriminate|].
  apply (indexable_call_default_bounds three_layers 5 []). discriminate.
Defined.

(** C8 counterexample: on the empty sequence, [call(x)] returns [None],
    while [call(x, start=0, last=-1)] raises IndexError (key 0 is out of
    range). *)
Lemma indexable_call_default_bounds_empty :
  indexable_call ([] : list (layer Z)) 5 None None [] = (inr None, []) /\
  indexable_call ([] : list (layer Z)) 5 (Some (KInt 0)) (Some (KInt (len ([] : list (layer Z)) - 1))) []
  = (inl IndexError, []).
Proof. split; reflexivity. Qed.

(** C9: an architecture name outside the VGG16 aliases raises TypeError
    before any construction step. *)
Theorem basenet_init_unsupported (vgg_notop vgg_top : list string)
    (architecture name : string) :
  ~ In architecture vgg16_aliases ->
  basenet_init vgg_notop vgg_top architecture name = (inl TypeError, []).
Proof.
  intros Hnot. unfold basenet_init.
  destruct (existsb (String.eqb architecture) vgg16_aliases) eqn:E; [|reflexivity].
  apply existsb_exists in E. destruct E as [y [Hy Heq]].
  apply String.eqb_eq in Heq. subst y. contradiction.
Qed.

Lemma basenet_init_unsupported_witness :
  ~ In "ResNet50"%string vgg16_aliases /\
  basenet_init ["input_1"; "block5_pool"]%string ["fc1"; "fc2"; "predictions"]%string
    "ResNet50" "BaseNet" = (inl TypeError, []).
Proof.
  assert (H : ~ In "ResNet50"%string vgg16_aliases)
    by (simpl; intuition discriminate).
  split; [exact H|]. apply basenet_init_unsupported. exact H.
Defined.

(** C10: [Powered_Sequential.call] and [Powered_Model.call] do not depend on
    the [training] argument. *)
Theorem calls_ignore_training {T} (layers : list (layer T)) (x : T)
    (start_layer last_layer : option key) :
  ps_call layers x true start_layer last_layer
    = ps_call layers x false start_layer last_layer /\
  pm_call layers x true start_layer last_layer
    = pm_call layers x false start_layer last_layer.
Proof. split; reflexivity. Qed.

(** * Further properties of the code *)

(** X1: an int key of [get_item] in [-len, len) selects a layer, a negative
    key [i - len] selecting the same layer as [i] (Python list indexing
    normalises it); any int key outside that range raises IndexError. *)
Theorem get_item_int_key {T} (layers : list (layer T)) (i k : Z) :
  (0 <= i < len layers ->
   exists L, nth_error layers (Z.to_nat i) = Some L /\
     get_item layers (KInt i) = inr (ILayer L) /\
     get_item layers (KInt (i - len layers)) = inr (ILayer L)) /\
  (len layers <= k \/ k < - len layers -> get_item layers (KInt k) = inl IndexError).
Proof.
  split.
  - intros Hi. destruct (get_item_int_valid T layers i Hi) as [L [HL HG]].
    exists L. split; [exact HL|]. split; [exact HG|].
    unfold get_item in *.
    replace (get_layer_index layers (KInt (i - len layers))) with
      (@inr exn Z (i - len layers))
      by (simpl; replace (len layers <=? i - len layers) with false
            by (symmetry; apply Z.leb_gt; lia); reflexivity).
    rewrite py_index_negative by lia.
    replace (len layers + (i - len layers)) with i by lia.
    rewrite get_layer_index_int in HG by lia. exact HG.
  - intros [Hk | Hk]; unfold get_item; simpl.
    + replace (len layers <=? k) with true by (symmetry; apply Z.leb_le; lia).
      reflexivity.
    + replace (len layers <=? k) with false
        by (symmetry; apply Z.leb_gt; unfold len in *; lia).
      rewrite py_index_below by exact Hk. reflexivity.
Qed.

Lemma get_item_int_key_witness :
  get_item three_layers (KInt (-1)) = inr (ILayer pool) /\
  get_item three_layers (KInt 3) = inl IndexError.
Proof.
  destruct (get_item_int_key three_layers 2 3) as [H1 H2].
  split.
  - destruct (H1 ltac:(unfold len; simpl; lia)) as [L [HL [_ HG]]].
    vm_compute in HL. inversion HL; subst L. exact HG.
  - apply H2. left. unfold len; simpl; lia.
Defined.

(** X2: a str key of [get_item] fails with ValueError exactly when no layer
    has that name, and otherwise returns the last layer with that name. *)
Theorem get_item_name_key {T} (layers : list (layer T)) (s : string) :
  (get_item layers (KStr s) = inl ValueError
     <-> Forall (fun L => lname L <> s) layers) /\
  (forall L, get_item layers (KStr s) = inr (ILayer L) <->
     exists j, nth_error layers j = Some L /\ lname L = s /\
       forall j' L', (j < j')%nat -> nth_error layers j' = Some L' -> lname L' <> s).
Proof.
  unfold get_item. simpl get_layer_index.
  destruct (name_scan_cases T layers 0 s None)
    as [[Hnone ->] | [j [L [Hj [HL [-> Hlast]]]]]].
  - split; [split; auto|]. intros L. split; [discriminate|].
    intros [j [Hj [HL _]]]. rewrite Forall_forall in Hnone.
    exfalso. apply (Hnone L); [eapply nth_error_In; eauto | exact HL].
  - assert (Hv : 0 <= 0 + Z.of_nat j < len layers).
    { assert (j < List.length layers)%nat by (apply nth_error_Some; congruence).
      unfold len. lia. }
    destruct (py_index_nth layers _ Hv) as [L' [HL' HP]].
    rewrite HP. rewrite Z.add_0_l, Nat2Z.id, Hj in HL'. inversion HL'; subst L'.
    split.
    + split; [discriminate|]. intros Hnone. rewrite Forall_forall in Hnone.
      exfalso. apply (Hnone L); [eapply nth_error_In; eauto | exact HL].
    + intros L2. split.
      * intros H. inversion H; subst L2. exists j. auto.
      * intros [j2 [Hj2 [HL2 Hlast2]]].
        destruct (Nat.lt_total j j2) as [Hlt | [Heq | Hgt]].
        -- exfalso. apply (Hlast _ _ Hlt Hj2 HL2).
        -- subst j2. rewrite Hj in Hj2. now inversion Hj2.
        -- exfalso. apply (Hlast2 _ _ Hgt Hj HL).
Qed.

(** X3: when the layer names are pairwise distinct, looking a layer up by
    its own name gives back its position and the layer itself. *)
Theorem get_item_name_roundtrip {T} (layers : list (layer T)) (j : nat) (L : layer T) :
  NoDup (map lname layers) -> nth_error layers j = Some L ->
  get_layer_index layers (KStr (lname L)) = inr (Z.of_nat j) /\
  get_item layers (KStr (lname L)) = inr (ILayer L).
Proof.
  intros Hnd Hj.
  assert (Hlt : (j < List.length layers)%nat) by (apply nth_error_Some; congruence).
  destruct (name_scan_cases T layers 0 (lname L) None)
    as [[Hnone _] | [j0 [L0 [Hj0 [HL0 [Hscan _]]]]]].
  - rewrite Forall_forall in Hnone. exfalso.
    apply (Hnone L); [eapply nth_error_In; eauto | reflexivity].
  - assert (Hlt0 : (j0 < List.length layers)%nat) by (apply nth_error_Some; congruence).
    assert (j0 = j).
    { apply (proj1 (NoDup_nth_error (map lname layers)) Hnd);
        [rewrite length_map; exact Hlt0|].
      rewrite !nth_error_map, Hj0, Hj. simpl. now rewrite HL0. }
    subst j0. rewrite Hj in Hj0. inversion Hj0; subst L0.
    assert (Hidx : get_layer_index layers (KStr (lname L)) = inr (Z.of_nat j))
      by (simpl; now rewrite Hscan).
    split; [exact Hidx|].
    unfold get_item. rewrite Hidx.
    destruct (py_index_nth layers (Z.of_nat j)) as [L' [HL' HP]]; [unfold len; lia|].
    rewrite Nat2Z.id, Hj in HL'. inversion HL'; subst L'. now rewrite HP.
Qed.

Lemma get_item_name_roundtrip_witness :
  get_layer_index three_layers (KStr "conv2") = inr 1 /\
  get_item three_layers (KStr "conv2") = inr (ILayer conv2).
Proof.
  apply (get_item_name_roundtrip three_layers 1 conv2).
  - vm_compute. repeat constructor; simpl; intuition discriminate.
  - reflexivity.
Defined.

(** X4: for any keys that resolve, [indexable_call] runs exactly the
    positions [max(0, start) .. last] in ascending order and returns the
    output of the layer at [last]; when that range is empty it runs nothing
    and returns [None]. *)
Theorem indexable_call_any_keys {T} (layers : list (layer T)) (x : T)
    (start_layer last_layer : option key) (start last : Z) (log : list Z) :
  resolve_start layers start_layer = inr start ->
  resolve_last layers last_layer = inr last ->
  indexable_call layers x start_layer last_layer log
  = if Z.max 0 start <=? last then
      (inr (Some (chain (firstn (Z.to_nat (last - Z.max 0 start + 1))
                           (skipn (Z.to_nat (Z.max 0 start)) layers)) x)),
       log ++ zseq (Z.max 0 start) (Z.to_nat (last - Z.max 0 start + 1)))
    else (inr None, log).
Proof. apply indexable_call_resolved. Qed.

Lemma indexable_call_any_keys_witness :
  resolve_start three_layers (Some (KStr "conv2")) = inr 1 /\
  resolve_last three_layers (Some (KStr "pool")) = inr 2 /\
  indexable_call three_layers 5 (Some (KStr "conv2")) (Some (KStr "pool")) []
  = (inr (Some 7), [1; 2]).
Proof.
  split; [reflexivity|]. split; [reflexivity|].
  rewrite (indexable_call_any_keys three_layers 5 (Some (KStr "conv2")) (Some (KStr "pool")) 1 2 [] eq_refl eq_refl).
  reflexivity.
Defined.

(** X5: when the start key fails to resolve, [indexable_call] raises that
    error without invoking any layer; likewise when the start key resolves
    and the last key does not. *)
Theorem indexable_call_resolution_error {T} (layers : list (layer T)) (x : T)
    (start_layer last_layer : option key) (start : Z) (e : exn) (log : list Z) :
  (resolve_start layers start_layer = inl e ->
   indexable_call layers x start_layer last_layer log = (inl e, log)) /\
  (resolve_start layers start_layer = inr start ->
   resolve_last layers last_layer = inl e ->
   indexable_call layers x start_layer last_layer log = (inl e, log)).
Proof.
  unfold indexable_call, bind, lift, raise, ret. split.
  - intros Hs. now rewrite Hs.
  - intros Hs Hl. now rewrite Hs, Hl.
Qed.

(** X7: a negative int last key (which [get_layer_index] returns as it is)
    makes [indexable_call] run no layer and return [None]. *)
Theorem indexable_call_negative_last {T} (layers : list (layer T)) (x : T)
    (start_layer : option key) (start k : Z) (log : list Z) :
  resolve_start layers start_layer = inr start -> k < 0 ->
  indexable_call layers x start_layer (Some (KInt k)) log = (inr None, log).
Proof.
  intros Hs Hk.
  assert (Hl : resolve_last layers (Some (KInt k)) = inr k).
  { simpl. replace (len layers <=? k) with false
      by (symmetry; apply Z.leb_gt; unfold len; lia). reflexivity. }
  rewrite (indexable_call_resolved T layers x _ _ start k log Hs Hl).
  replace (Z.max 0 start <=? k) with false by (symmetry; apply Z.leb_gt; lia).
  reflexivity.
Qed.

Lemma indexable_call_negative_last_witness :
  indexable_call three_layers 5 None (Some (KInt (-1))) [] = (inr None, []).
Proof. apply (indexable_call_negative_last three_layers 5 None 0 (-1) []); reflexivity. Defined.

(** X8: partial executions compose: running [k1 .. k2] and feeding the
    result into a run of [k2+1 .. k3] gives the same output and the same
    invocation log as running [k1 .. k3]. *)
Theorem indexable_call_compose {T} (layers : list (layer T)) (x : T)
    (k1 k2 k3 : Z) (log : list Z) :
  0 <= k1 <= k2 -> k2 < k3 -> k3 < len layers ->
  match indexable_call layers x (Some (KInt k1)) (Some (KInt k2)) log with
  | (inr (Some y), log') =>
      indexable_call layers y (Some (KInt (k2 + 1))) (Some (KInt k3)) log'
  | r => r
  end
  = indexable_call layers x (Some (KInt k1)) (Some (KInt k3)) log.
Proof.
  intros H12 H23 H3.
  rewrite !(indexable_call_int_range T layers) by lia.
  rewrite <- app_assoc, <- chain_app.
  replace (Z.to_nat (k3 - k1 + 1))
    with (Z.to_nat (k2 - k1 + 1) + Z.to_nat (k3 - (k2 + 1) + 1))%nat by lia.
  rewrite firstn_skipn_add, skipn_skipn, zseq_app.
  replace (Z.to_nat (k2 - k1 + 1) + Z.to_nat k1)%nat with (Z.to_nat (k2 + 1)) by lia.
  replace (k1 + Z.of_nat (Z.to_nat (k2 - k1 + 1))) with (k2 + 1) by lia.
  reflexivity.
Qed.

Lemma indexable_call_compose_witness :
  indexable_call three_layers 5 (Some (KInt 1)) (Some (KInt 1)) [] = (inr (Some 10), [1]) /\
  indexable_call three_layers 10 (Some (KInt 2)) (Some (KInt 2)) [1] = (inr (Some 7), [1; 2]) /\
  indexable_call three_layers 5 (Some (KInt 1)) (Some (KInt 2)) [] = (inr (Some 7), [1; 2]).
Proof.
  pose proof (indexable_call_compose three_layers 5 1 1 2 []
                ltac:(lia) ltac:(lia) ltac:(unfold len; simpl; lia)) as H.
  split; [reflexivity|]. split; [reflexivity|].
  rewrite <- H. reflexivity.
Defined.

(** X9: without start and last keys, [indexable_call] chains every layer in
    order and logs every position; on an empty sequence it runs nothing and
    returns [None]. *)
Theorem indexable_call_full {T} (layers : list (layer T)) (x : T) (log : list Z) :
  (layers <> [] ->
   indexable_call layers x None None log
   = (inr (Some (chain layers x)), log ++ zseq 0 (List.length layers))) /\
  indexable_call [] x None None log = (inr None, log).
Proof.
  split; [|reflexivity].
  intros Hne.
  assert (Hpos : (0 < List.length layers)%nat)
    by (destruct layers; [contradiction | simpl; lia]).
  rewrite (indexable_call_resolved T layers x None None 0 (len layers - 1) log
             eq_refl eq_refl).
  unfold len.
  replace (Z.max 0 0 <=? Z.of_nat (List.length layers) - 1) with true
    by (symmetry; apply Z.leb_le; lia).
  replace (Z.to_nat (Z.of_nat (List.length layers) - 1 - Z.max 0 0 + 1))
    with (List.length layers) by lia.
  simpl. rewrite firstn_all. reflexivity.
Qed.

Lemma indexable_call_full_witness :
  indexable_call three_layers 5 None None [] = (inr (Some 9), [0; 1; 2]).
Proof.
  rewrite (proj1 (indexable_call_full three_layers 5 [])) by discriminate.
  reflexivity.
Defined.

(** X10: with no more inputs than input stages (and as many predictors as
    input stages), the detector runs one branch per input, in order, and
    returns [p_i(s_i(x_i))] for each of them; stages beyond the inputs are
    never run. *)
Theorem detector_call_fewer_inputs {T} (stages preds : list (layer T)) (xs : list T)
    (training : bool) (log : list Z) :
  List.length preds = List.length stages ->
  (List.length xs <= List.length stages)%nat ->
  detector_call stages preds xs training log
  = (inr (map Some (branch_outputs stages preds xs)),
     log ++ branch_trace (len stages) (py_range (len xs))).
Proof.
  intros Hp Hx. unfold detector_call, py_range.
  rewrite <- (app_nil_r (zseq 0 (Z.to_nat (len xs)))).
  rewrite (detector_loop_prefix T stages preds xs) by (unfold len in *; lia).
  unfold len. rewrite Nat2Z.id. simpl skipn.
  rewrite branch_outputs_firstn by exact Hx.
  cbn [detector_loop]. unfold ret. rewrite app_nil_r. reflexivity.
Qed.

Lemma detector_call_fewer_inputs_witness :
  detector_call [s0; s1] [p0; p1] [4] false [] = (inr [Some 13], [0; 2]).
Proof.
  rewrite (detector_call_fewer_inputs [s0; s1] [p0; p1] [4] false [])
    by (simpl; lia).
  reflexivity.
Defined.

(** X11: with more inputs than input stages (and as many predictors as input
    stages), the detector fails with IndexError: after the regular branches,
    the extra input is fed to the first predictor (position [len(stages)])
    and the predictor position [2 * len(stages)] is out of range. *)
Theorem detector_call_extra_inputs {T} (stages preds : list (layer T)) (xs : list T)
    (training : bool) (log : list Z) :
  List.length preds = List.length stages ->
  (List.length stages < List.length xs)%nat ->
  detector_call stages preds xs training log
  = (inl IndexError,
     log ++ branch_trace (len stages) (py_range (len stages))
         ++ match stages with [] => [] | _ => [len stages] end).
Proof.
  intros Hp Hx. unfold detector_call, py_range.
  replace (Z.to_nat (len xs))
    with (List.length stages + S (List.length xs - S (List.length stages)))%nat
    by (unfold len; lia).
  rewrite zseq_app.
  rewrite (detector_loop_prefix T stages preds xs) by (unfold len in *; lia).
  simpl Z.add.
  change (zseq (Z.of_nat (List.length stages)) (S (List.length xs - S (List.length stages))))
    with (Z.of_nat (List.length stages)
          :: zseq (Z.of_nat (List.length stages) + 1) (List.length xs - S (List.length stages))).
  cbn [detector_loop].
  destruct (py_index_nth xs (Z.of_nat (List.length stages))) as [x [_ Hpx]];
    [unfold len; lia|].
  unfold bind at 1, lift at 1. rewrite Hpx. unfold ret at 1.
  unfold bind at 1.
  destruct (Nat.eq_dec (List.length stages) 0) as [H0 | H0].
  - apply length_zero_iff_nil in H0. subst stages.
    destruct preds; [|simpl in Hp; lia].
    simpl. rewrite !app_nil_r. reflexivity.
  - destruct (py_index_nth (detector_layers stages preds) (Z.of_nat (List.length stages)))
      as [pr [_ Hps]];
      [unfold len, detector_layers; rewrite length_app; lia|].
    rewrite (call_layer_ok _ _ _ _ _ _ Hps).
    unfold pm_call, indexable_call, bind at 1, lift at 1.
    unfold resolve_start, get_layer_index.
    replace (len (detector_layers stages preds)
             <=? Z.of_nat (List.length stages) + len stages)
      with true
      by (symmetry; apply Z.leb_le; unfold len, detector_layers;
          rewrite length_app; lia).
    unfold raise. rewrite <- !app_assoc.
    destruct stages; [simpl in H0; lia|].
    unfold bind, len. rewrite Nat2Z.id. reflexivity.
Qed.

Lemma detector_call_extra_inputs_witness :
  detector_call [s0; s1] [p0; p1] [1; 2; 3] false []
  = (inl IndexError, [0; 2; 1; 3; 2]).
Proof.
  rewrite (detector_call_extra_inputs [s0; s1] [p0; p1] [1; 2; 3] false [])
    by (simpl; lia).
  reflexivity.
Defined.

(** X12: for a recognised alias, a pretrained extractor [base ++ [top]] and
    a full network with at least two layers, BaseNet keeps [base], replaces
    [top] by a max-pooling layer of the same name, appends [head_conv6] and
    [head_conv7], and sets the weights of exactly the two new convolutions,
    which are the layers at positions -2 and -1 of the model. *)
Theorem basenet_init_vgg16 (base : list string) (top : string)
    (vgg_top : list string) (architecture name : string) :
  In architecture vgg16_aliases -> (2 <= List.length vgg_top)%nat ->
  let layers := base ++ [top; "head_conv6"; "head_conv7"]%string in
  basenet_init (base ++ [top]) vgg_top architecture name
  = (inr layers,
     [LoadVGG16 false; LoadVGG16 true; NewMaxPool2D top;
      NewConv2D "head_conv6"; NewConv2D "head_conv7";
      ModelInit name layers; SetWeights (-2); SetWeights (-1)]) /\
  py_index layers (-2) = inr "head_conv6"%string /\
  py_index layers (-1) = inr "head_conv7"%string.
Proof.
  intros Hin Htop layers.
  assert (Hlen : len (base ++ [top]) = len base + 1)
    by (unfold len; rewrite length_app; simpl; lia).
  assert (Hslice : py_slice (base ++ [top]) (Some 0) (Some (-1)) = base).
  { unfold py_slice, slice_adjust. cbv zeta. rewrite Hlen.
    change (-1 <? 0) with true. change (0 <? 0) with false. cbv iota beta.
    replace (Z.min 0 (len base + 1)) with 0 by (unfold len; lia).
    replace (Z.max 0 (len base + 1 + -1) - 0) with (len base) by (unfold len; lia).
    unfold len. rewrite Nat2Z.id. simpl skipn.
    rewrite firstn_app, firstn_all, Nat.sub_diag. simpl. apply app_nil_r. }
  assert (Htopi : py_index (base ++ [top]) (-1) = inr top).
  { rewrite py_index_negative by (try rewrite Hlen; unfold len; lia).
    rewrite Hlen. replace (len base + 1 + -1) with (Z.of_nat (List.length base))
      by (unfold len; lia).
    destruct (py_index_nth (base ++ [top]) (Z.of_nat (List.length base)))
      as [y [Hy HP]]; [rewrite Hlen; unfold len; lia|].
    rewrite HP. rewrite Nat2Z.id, nth_error_app2, Nat.sub_diag in Hy by lia.
    simpl in Hy. now inversion Hy. }
  set (head := py_slice vgg_top (Some (-3)) None).
  assert (Hhead : (2 <= List.length head)%nat).
  { subst head. unfold py_slice, slice_adjust. simpl.
    rewrite length_firstn, length_skipn. unfold len. lia. }
  destruct (py_index_nth head 0) as [h0 [_ H0]]; [unfold len; lia|].
  destruct (py_index_nth head 1) as [h1 [_ H1]]; [unfold len; lia|].
  assert (Hexists : existsb (String.eqb architecture) vgg16_aliases = true).
  { apply existsb_exists. exists architecture. split; [exact Hin|].
    apply String.eqb_refl. }
  split; [|split].
  - unfold basenet_init. rewrite Hexists, Hslice, Htopi. fold head.
    rewrite H0, H1. subst layers. rewrite <- app_assoc. reflexivity.
  - subst layers. rewrite py_index_negative by (unfold len; try rewrite length_app; simpl; lia).
    destruct (py_index_nth (base ++ [top; "head_conv6"; "head_conv7"]%string)
                (len (base ++ [top; "head_conv6"; "head_conv7"]%string) + -2))
      as [y [Hy HP]]; [unfold len; rewrite length_app; simpl; lia|].
    rewrite HP. unfold len in Hy. rewrite length_app in Hy.
    rewrite nth_error_app2 in Hy by (simpl; lia).
    replace (Z.to_nat (Z.of_nat (List.length base + List.length [top; "head_conv6"; "head_conv7"]%string) + -2)
             - List.length base)%nat with 1%nat in Hy by (simpl; lia).
    simpl in Hy. now inversion Hy.
  - subst layers. rewrite py_index_negative by (unfold len; try rewrite length_app; simpl; lia).
    destruct (py_index_nth (base ++ [top; "head_conv6"; "head_conv7"]%string)
                (len (base ++ [top; "head_conv6"; "head_conv7"]%string) + -1))
      as [y [Hy HP]]; [unfold len; rewrite length_app; simpl; lia|].
    rewrite HP. unfold len in Hy. rewrite length_app in Hy.
    rewrite nth_error_app2 in Hy by (simpl; lia).
    replace (Z.to_nat (Z.of_nat (List.length base + List.length [top; "head_conv6"; "head_conv7"]%string) + -1)
             - List.length base)%nat with 2%nat in Hy by (simpl; lia).
    simpl in Hy. now inversion Hy.
Qed.

Lemma basenet_init_vgg16_witness :
  basenet_init (["input_1"; "block5_conv3"]%string ++ ["block5_pool"%string])
    ["fc1"; "fc2"; "predictions"]%string "VGG_16" "BaseNet"
  = (inr ["input_1"; "block5_conv3"; "block5_pool"; "head_conv6"; "head_conv7"]%string,
     [LoadVGG16 false; LoadVGG16 true; NewMaxPool2D "block5_pool";
      NewConv2D "head_conv6"; NewConv2D "head_conv7";
      ModelInit "BaseNet" ["input_1"; "block5_conv3"; "block5_pool";
                           "head_conv6"; "head_conv7"]%string;
      SetWeights (-2); SetWeights (-1)]).
Proof.
  apply (basenet_init_vgg16 ["input_1"; "block5_conv3"]%string "block5_pool"
           ["fc1"; "fc2"; "predictions"]%string "VGG_16" "BaseNet").
  - simpl. auto.
  - simpl. lia.
Defined.

(** X13: a slice whose bounds are ints or missing never fails (out-of-range
    ints are clamped by Python slicing), while a slice with a str bound that
    names no layer fails with ValueError. *)
Theorem get_item_slice_errors {T} (layers : list (layer T)) (s : string)
    (w z : option Z) (other : option bound) :
  (exists it, get_item layers (KSlice (option_map BInt w) (option_map BInt z)) = inr it) /\
  (Forall (fun L => lname L <> s) layers ->
   get_item layers (KSlice (Some (BStr s)) other) = inl ValueError /\
   get_item layers (KSlice other (Some (BStr s))) = inl ValueError).
Proof.
  split.
  - unfold get_item, get_slice.
    destruct w, z; simpl;
      match goal with |- exists it, (if ?c then _ else _) = _ => destruct c end;
      eauto.
  - intros Hnone.
    assert (Hv : get_layer_index layers (KStr s) = inl ValueError).
    { simpl. destruct (name_scan_cases T layers 0 s None)
        as [[_ ->] | [j [L [Hj [HL _]]]]]; [reflexivity|].
      rewrite Forall_forall in Hnone. exfalso.
      apply (Hnone L); [eapply nth_error_In; eauto | exact HL]. }
    unfold get_item, get_slice. rewrite Hv. split; [reflexivity|].
    destruct other as [[b|b]|]; [reflexivity| |reflexivity].
    destruct (get_layer_index layers (KStr b)) as [e|] eqn:Eb; [|reflexivity].
    simpl in Eb. destruct (name_scan layers 0 b None); inversion Eb; reflexivity.
Qed.

Lemma get_item_slice_errors_witness :
  get_item three_layers (KSlice (Some (BStr "ghost")) None) = inl ValueError.
Proof.
  apply (get_item_slice_errors three_layers "ghost" None None None).
  repeat constructor; simpl; discriminate.
Defined.
